(** * allure-parser: the parse-and-aggregate pipeline of the Prometheus exporter

  A shallow embedding of the exporter's [main] package (the version with the
  nine metric families, [resetMetrics], [getLabelValue] and [isUsefulLabel])
  and the properties of its specification that can be stated over it.

  Conventions of the embedding:
  - Go [string]s are byte strings ([string] of the Standard Library);
  - Go [int] and [int64] are [Z], with the 64-bit wrap-around written out
    where the program computes on them;
  - [float64] is the kernel's binary64 ([PrimFloat.float]);
  - a [*prometheus.GaugeVec] is a finite map from the tuple of label values
    to the gauge's value, a [prometheus.Gauge] a single value;
  - the registry operations the worker performs are kept as a sequence of
    atomic actions, so that the states a concurrent scrape can see are the
    states between two actions. *)

From Stdlib Require Import ZArith String Ascii List Bool Lia.
From Stdlib Require Import Floats.PrimFloat Floats.SpecFloat Floats.FloatOps.
From stdpp Require Import base option gmap strings list pretty relations.

Open Scope string_scope.
Open Scope list_scope.
Open Scope Z_scope.

(** ** Go's numeric conversions *)

Module Float64.

(** [float64(n)] for an integer [n]: the nearest binary64, ties to even. *)
Definition of_int (n : Z) : float :=
  SF2Prim (binary_normalize prec emax n 0 false).

End Float64.

Module Int64.

Definition min_int : Z := - 2 ^ 63.
Definition max_int : Z := 2 ^ 63 - 1.

(** Two's complement wrap-around of a 64-bit signed result. *)
Definition wrap (z : Z) : Z := (z + 2 ^ 63) mod 2 ^ 64 - 2 ^ 63.


Definition sub (a b : Z) : Z := wrap (a - b).

End Int64.

(** ** The part of package [strings] the program calls

  Both functions are modelled on the bytes of the string. The letters
  [A]..[Z] are folded to [a]..[z]; every other byte, the bytes of a
  multi-byte UTF-8 sequence included, is left as it is (Go consults the
  Unicode tables for those), so the model is that of Go on strings of
  ASCII characters. *)

Module GoStrings.

Definition is_upper (c : ascii) : bool :=
  let n := N_of_ascii c in ((65 <=? n)%N && (n <=? 90)%N)%bool.

Definition lower_byte (c : ascii) : ascii :=
  if is_upper c then ascii_of_N (N_of_ascii c + 32) else c.

(** [strings.ToLower] *)
Fixpoint ToLower (s : string) : string :=
  match s with
  | EmptyString => EmptyString
  | String c s' => String (lower_byte c) (ToLower s')
  end.

(** One iteration of the loop of [strings.EqualFold]: equal bytes, or,
    once ordered so that [sr < tr], an upper-case [sr] and [tr = sr+'a'-'A']. *)
Definition fold_eq_byte (sr tr : ascii) : bool :=
  if Ascii.eqb tr sr then true
  else
    let (sr, tr) := if (N_of_ascii tr <? N_of_ascii sr)%N then (tr, sr) else (sr, tr) in
    is_upper sr && (N_of_ascii tr =? N_of_ascii sr + 32)%N.

(** [strings.EqualFold]: the loop stops at the first differing pair, and
    at the end both strings must be exhausted. *)
Fixpoint EqualFold (s t : string) : bool :=
  match s, t with
  | EmptyString, EmptyString => true
  | String sr s', String tr t' => fold_eq_byte sr tr && EqualFold s' t'
  | _, _ => false
  end.

End GoStrings.

(** ** The part of the Prometheus client the program calls *)

Module Prom.

Definition Gauge : Type := float.

(** A vector of gauges: one child per tuple of label values. *)
Abbreviation GaugeVec := (gmap (list string) float).

(** A freshly created collector. *)
Definition NewGauge : Gauge := 0%float.
Definition NewGaugeVec : GaugeVec := ∅.

(** [v.Reset()] deletes every child. *)
Definition Reset (v : GaugeVec) : GaugeVec := ∅.

(** [v.WithLabelValues(lvs...)] creates the child with value 0 when it is
    not there yet; [Set] and [Inc] then act on it. *)
Definition child (lvs : list string) (v : GaugeVec) : float :=
  default 0%float (v !! lvs).

Definition Set_ (lvs : list string) (x : float) (v : GaugeVec) : GaugeVec :=
  <[lvs := x]> v.

Definition Inc (lvs : list string) (v : GaugeVec) : GaugeVec :=
  <[lvs := (child lvs v + 1)%float]> v.

End Prom.

(** ** The Allure data structures *)

Abbreviation AllureEnvironment := (gmap string string).

Record Statistic := {
  Passed : Z;
  Failed : Z;
  Broken : Z;
  Skipped : Z
}.

Record AllureSummary := {
  Summary_Statistic : Statistic;
  Time_Duration : Z
}.

Record Label := {
  Label_Name : string;
  Label_Value : string
}.

Record Step := {
  Step_Name : string;
  Step_Status : string
}.

Record AllureTestCase := {
  UUID : string;
  Name : string;
  Status : string;
  Start : Z;
  Stop : Z;
  Labels : list Label;
  Steps : list Step
}.

Record HistoryItem := {
  Data_Failed : Z
}.

Record AllureHistoryTrend := {
  Items : list HistoryItem
}.

(** ** Helper functions *)

Fixpoint getLabelValue (labels : list Label) (name : string) : string :=
  match labels with
  | [] => "unknown"
  | label :: rest =>
    if GoStrings.EqualFold (Label_Name label) name then Label_Value label
    else getLabelValue rest name
  end.

Definition usefulLabels : gmap string bool :=
  <["epic" := true]> (<["feature" := true]> (<["story" := true]>
  (<["severity" := true]> (<["owner" := true]> (<["layer" := true]> ∅))))).

(** Indexing a Go map with a missing key gives the zero value, [false]. *)
Definition isUsefulLabel (name : string) : bool :=
  default false (usefulLabels !! GoStrings.ToLower name).


(** ** The metrics registry

    The nine collectors of the global [metrics] struct. *)

Record Metrics := {
  testsTotal : Prom.GaugeVec;
  suiteDuration : Prom.Gauge;
  testDuration : Prom.GaugeVec;
  testStatus : Prom.GaugeVec;
  flakyRatio : Prom.Gauge;
  environmentInfo : Prom.GaugeVec;
  historyTrend : Prom.GaugeVec;
  testsByLabel : Prom.GaugeVec;
  stepsTotal : Prom.GaugeVec
}.

(** The registry as the package's [var] block creates it. *)
Definition metrics_init : Metrics := {|
  testsTotal := Prom.NewGaugeVec;
  suiteDuration := Prom.NewGauge;
  testDuration := Prom.NewGaugeVec;
  testStatus := Prom.NewGaugeVec;
  flakyRatio := Prom.NewGauge;
  environmentInfo := Prom.NewGaugeVec;
  historyTrend := Prom.NewGaugeVec;
  testsByLabel := Prom.NewGaugeVec;
  stepsTotal := Prom.NewGaugeVec
|}.

(** One call of a collector's method is one atomic action on the registry
    (each collector has a lock of its own; the program adds none). *)
Definition Action : Type := Metrics -> Metrics.

Definition on_testsTotal (f : Prom.GaugeVec -> Prom.GaugeVec) : Action := fun m =>
  {| testsTotal := f (testsTotal m); suiteDuration := suiteDuration m;
     testDuration := testDuration m; testStatus := testStatus m;
     flakyRatio := flakyRatio m; environmentInfo := environmentInfo m;
     historyTrend := historyTrend m; testsByLabel := testsByLabel m;
     stepsTotal := stepsTotal m |}.

Definition on_suiteDuration (f : Prom.Gauge -> Prom.Gauge) : Action := fun m =>
  {| testsTotal := testsTotal m; suiteDuration := f (suiteDuration m);
     testDuration := testDuration m; testStatus := testStatus m;
     flakyRatio := flakyRatio m; environmentInfo := environmentInfo m;
     historyTrend := historyTrend m; testsByLabel := testsByLabel m;
     stepsTotal := stepsTotal m |}.

Definition on_testDuration (f : Prom.GaugeVec -> Prom.GaugeVec) : Action := fun m =>
  {| testsTotal := testsTotal m; suiteDuration := suiteDuration m;
     testDuration := f (testDuration m); testStatus := testStatus m;
     flakyRatio := flakyRatio m; environmentInfo := environmentInfo m;
     historyTrend := historyTrend m; testsByLabel := testsByLabel m;
     stepsTotal := stepsTotal m |}.

Definition on_testStatus (f : Prom.GaugeVec -> Prom.GaugeVec) : Action := fun m =>
  {| testsTotal := testsTotal m; suiteDuration := suiteDuration m;
     testDuration := testDuration m; testStatus := f (testStatus m);
     flakyRatio := flakyRatio m; environmentInfo := environmentInfo m;
     historyTrend := historyTrend m; testsByLabel := testsByLabel m;
     stepsTotal := stepsTotal m |}.

Definition on_flakyRatio (f : Prom.Gauge -> Prom.Gauge) : Action := fun m =>
  {| testsTotal := testsTotal m; suiteDuration := suiteDuration m;
     testDuration := testDuration m; testStatus := testStatus m;
     flakyRatio := f (flakyRatio m); environmentInfo := environmentInfo m;
     historyTrend := historyTrend m; testsByLabel := testsByLabel m;
     stepsTotal := stepsTotal m |}.

Definition on_environmentInfo (f : Prom.GaugeVec -> Prom.GaugeVec) : Action := fun m =>
  {| testsTotal := testsTotal m; suiteDuration := suiteDuration m;
     testDuration := testDuration m; testStatus := testStatus m;
     flakyRatio := flakyRatio m; environmentInfo := f (environmentInfo m);
     historyTrend := historyTrend m; testsByLabel := testsByLabel m;
     stepsTotal := stepsTotal m |}.

Definition on_historyTrend (f : Prom.GaugeVec -> Prom.GaugeVec) : Action := fun m =>
  {| testsTotal := testsTotal m; suiteDuration := suiteDuration m;
     testDuration := testDuration m; testStatus := testStatus m;
     flakyRatio := flakyRatio m; environmentInfo := environmentInfo m;
     historyTrend := f (historyTrend m); testsByLabel := testsByLabel m;
     stepsTotal := stepsTotal m |}.

Definition on_testsByLabel (f : Prom.GaugeVec -> Prom.GaugeVec) : Action := fun m =>
  {| testsTotal := testsTotal m; suiteDuration := suiteDuration m;
     testDuration := testDuration m; testStatus := testStatus m;
     flakyRatio := flakyRatio m; environmentInfo := environmentInfo m;
     historyTrend := historyTrend m; testsByLabel := f (testsByLabel m);
     stepsTotal := stepsTotal m |}.

Definition on_stepsTotal (f : Prom.GaugeVec -> Prom.GaugeVec) : Action := fun m =>
  {| testsTotal := testsTotal m; suiteDuration := suiteDuration m;
     testDuration := testDuration m; testStatus := testStatus m;
     flakyRatio := flakyRatio m; environmentInfo := environmentInfo m;
     historyTrend := historyTrend m; testsByLabel := testsByLabel m;
     stepsTotal := f (stepsTotal m) |}.

(** Running a sequence of actions, first to last. *)
Definition exec (acts : list Action) (m : Metrics) : Metrics :=
  fold_left (fun m a => a m) acts m.

(** ** Updating the metrics *)

Definition resetMetrics : list Action :=
  [ on_testsTotal Prom.Reset;
    on_testDuration Prom.Reset;
    on_testStatus Prom.Reset;
    on_environmentInfo Prom.Reset;
    on_historyTrend Prom.Reset;
    on_testsByLabel Prom.Reset;
    on_stepsTotal Prom.Reset ].

Definition updateSummaryMetrics (summary : AllureSummary) : list Action :=
  let st := Summary_Statistic summary in
  [ on_testsTotal (Prom.Set_ ["passed"] (Float64.of_int (Passed st)));
    on_testsTotal (Prom.Set_ ["failed"] (Float64.of_int (Failed st)));
    on_testsTotal (Prom.Set_ ["broken"] (Float64.of_int (Broken st)));
    on_testsTotal (Prom.Set_ ["skipped"] (Float64.of_int (Skipped st)));
    on_suiteDuration (fun _ => (Float64.of_int (Time_Duration summary) / 1000)%float) ].

(** [fmt.Sprintf("build_%d", i)] *)
Definition build_label (i : nat) : string := "build_" +:+ pretty i.

(** The [for i, item := range history.Items] loop: the actions it performs
    from index [i] on, and the final value of [failedCount]. *)
Fixpoint history_loop (i : nat) (items : list HistoryItem) (failedCount : Z)
  : list Action * Z :=
  match items with
  | [] => ([], failedCount)
  | item :: rest =>
    let set := on_historyTrend
      (Prom.Set_ [build_label i] (Float64.of_int (Data_Failed item))) in
    let failedCount' :=
      if 0 <? Data_Failed item then failedCount + 1 else failedCount in
    let (acts, n) := history_loop (S i) rest failedCount' in
    (set :: acts, n)
  end.

Definition updateHistoryMetrics (history : AllureHistoryTrend) : list Action :=
  if Nat.eqb (length (Items history)) 0%nat then []
  else
    let (acts, failedCount) := history_loop 0%nat (Items history) 0 in
    let ratio :=
      (Float64.of_int failedCount
       / Float64.of_int (Z.of_nat (length (Items history))))%float in
    acts ++ [ on_flakyRatio (fun _ => ratio) ].

(** [stepsByStatus[step.Status]++] over the steps of a test case. *)
Definition count_steps (steps : list Step) : gmap string Z :=
  fold_left
    (fun (m : gmap string Z) step =>
       <[Step_Status step := default 0 (m !! Step_Status step) + 1]> m)
    steps ∅.

Definition updateTestCaseMetrics (tc : AllureTestCase) : list Action :=
  let duration :=
    (Float64.of_int (Int64.sub (Stop tc) (Start tc)) / 1000)%float in
  let statusValue :=
    if String.eqb (Status tc) "passed" then 1%float else 0%float in
  let stepsByStatus := count_steps (Steps tc) in
  [ on_testDuration
      (Prom.Set_ [Name tc; getLabelValue (Labels tc) "suite"] duration);
    on_testStatus
      (Prom.Set_ [Name tc; Status tc; getLabelValue (Labels tc) "severity"]
         statusValue) ]
  ++ map (fun '(status, count) =>
            on_stepsTotal (Prom.Set_ [Name tc; status] (Float64.of_int count)))
         (map_to_list stepsByStatus)
  ++ flat_map (fun label =>
            if isUsefulLabel (Label_Name label)
            then [ on_testsByLabel
                     (Prom.Inc [Label_Name label; Label_Value label]) ]
            else [])
         (Labels tc).

(** ** Files and errors

    Reading a file and decoding its JSON are calls into the operating system
    and into [encoding/json]; a file system is modelled by what these two
    calls give for each path and expected shape. *)

Inductive error :=
| ErrOS (msg : string)
| ErrJSON (msg : string)
| Errorf (context : string) (wrapped : error).

Inductive Loaded (A : Type) :=
| ReadFailed (err : error)
| UnmarshalFailed (err : error)
| Decoded (a : A).

Arguments ReadFailed {A} err.
Arguments UnmarshalFailed {A} err.
Arguments Decoded {A} a.

Record FileSystem := {
  environmentAt : string -> Loaded AllureEnvironment;
  summaryAt : string -> Loaded AllureSummary;
  historyTrendAt : string -> Loaded AllureHistoryTrend;
  testCaseAt : string -> Loaded AllureTestCase;
  (** [filepath.Glob]: the matching paths, or [ErrBadPattern] *)
  Glob : string -> list string + error
}.

(** [filepath.Join], without the final [Clean]. *)
Definition Join (elem : list string) : string := String.concat "/" elem.

(** The [ReadFile]/[Unmarshal] prologue shared by the four parsers. *)
Definition load {A : Type} (file : Loaded A) : A + error :=
  match file with
  | ReadFailed err => inr (Errorf "read file" err)
  | UnmarshalFailed err => inr (Errorf "json unmarshal" err)
  | Decoded a => inl a
  end.

Definition parseEnvironment (fs : FileSystem) (path : string)
  : list Action * option error :=
  match load (environmentAt fs path) with
  | inr err => ([], Some err)
  | inl env =>
    (map (fun '(k, v) => on_environmentInfo (Prom.Set_ [k; v] 1%float))
         (map_to_list env),
     None)
  end.

Definition parseSummary (fs : FileSystem) (path : string) : AllureSummary + error :=
  load (summaryAt fs path).

Definition parseHistoryTrend (fs : FileSystem) (path : string)
  : AllureHistoryTrend + error :=
  load (historyTrendAt fs path).

Definition parseTestCase (fs : FileSystem) (path : string) : AllureTestCase + error :=
  load (testCaseAt fs path).

(** Step 3 of [parseAllureReports]: the history trend is optional, a failure
    is only logged. *)
Definition historyStep (fs : FileSystem) (path : string) : list Action :=
  match parseHistoryTrend fs (Join [path; "widgets"; "history-trend.json"]) with
  | inl history => updateHistoryMetrics history
  | inr _ => []
  end.

(** The [for _, testFile := range testFiles] loop of step 4: a file that
    does not parse is logged and skipped. *)
Definition testCaseLoop (fs : FileSystem) (testFiles : list string) : list Action :=
  flat_map (fun testFile =>
              match parseTestCase fs testFile with
              | inl tc => updateTestCaseMetrics tc
              | inr _ => []
              end)
           testFiles.

(** The body of [parseAllureReports]: the registry actions it performs, in
    program order, and the error it returns ([None] for [nil]). The calls to
    the logger are left out. *)
Definition parseAllureReports_body (fs : FileSystem) (path : string)
  : list Action * option error :=
  let reset := resetMetrics in
  let env := fst (parseEnvironment fs (Join [path; "environment.json"])) in
  match parseSummary fs (Join [path; "widgets"; "summary.json"]) with
  | inr err => (reset ++ env, Some (Errorf "summary parse failed" err))
  | inl summary =>
    let sum := updateSummaryMetrics summary in
    let hist := historyStep fs path in
    match Glob fs (Join [path; "data"; "test-cases"; "*.json"]) with
    | inr err =>
      (reset ++ env ++ sum ++ hist, Some (Errorf "test cases glob failed" err))
    | inl testFiles =>
      (reset ++ env ++ sum ++ hist ++ testCaseLoop fs testFiles, None)
    end
  end.

(** ** Time and the global state *)

Module GoTime.

(** An instant, in nanoseconds since the zero [time.Time]. *)
Definition Time : Type := Z.
Definition zero : Time := 0.

Definition Duration : Type := Z.
Definition Second : Duration := 1000000000.
Definition Minute : Duration := 60 * Second.

(** [t.Sub(u)] saturates at the ends of [Duration]. *)
Definition Sub (t u : Time) : Duration :=
  Z.max Int64.min_int (Z.min Int64.max_int (t - u)).

(** [time.Since(t)], with [now] the reading of the clock. *)
Definition Since (now t : Time) : Duration := Sub now t.

End GoTime.

Record State := {
  metrics : Metrics;
  lastParseTime : GoTime.Time
}.

Definition state_init : State :=
  {| metrics := metrics_init; lastParseTime := GoTime.zero |}.

(** One call of [parseAllureReports]: the body runs on the registry, and the
    deferred function stores the clock, read as [now] when the call returns,
    in [lastParseTime] on every return path. *)
Definition parseAllureReports (fs : FileSystem) (now : GoTime.Time)
  (path : string) (st : State) : State * option error :=
  let (acts, err) := parseAllureReports_body fs path in
  ({| metrics := exec acts (metrics st); lastParseTime := now |}, err).

(** [runParser] over a finite run: the first element is the initial parse,
    the others the ticks of the ticker; each gives the directory as the cycle
    finds it and the clock when the cycle returns. An error is logged and
    the loop goes on. *)
Definition runParser (path : string) (cycles : list (FileSystem * GoTime.Time))
  (st : State) : State :=
  fold_left (fun st '(fs, now) => fst (parseAllureReports fs now path st))
            cycles st.

Definition StatusOK : Z := 200.
Definition StatusServiceUnavailable : Z := 503.

(** [healthCheck]: the status code and the body written. *)
Definition healthCheck (now : GoTime.Time) (st : State) : Z * string :=
  if 5 * GoTime.Minute <? GoTime.Since now (lastParseTime st)
  then (StatusServiceUnavailable, "UNHEALTHY: Data is stale")
  else (StatusOK, "OK").

(** ** The worker and a concurrent reader

    The worker goroutine runs the actions of a cycle one after the other; the
    handler of [/metrics] runs on another goroutine and may read the registry
    between any two of them. *)

Record System := {
  pending : list Action;
  registry : Metrics;
  scraped : list Metrics
}.

Inductive step : System -> System -> Prop :=
| step_worker a acts m seen :
    step {| pending := a :: acts; registry := m; scraped := seen |}
         {| pending := acts; registry := a m; scraped := seen |}
| step_reader acts m seen :
    step {| pending := acts; registry := m; scraped := seen |}
         {| pending := acts; registry := m; scraped := m :: seen |}.

(** The registry before the first action and after each action. *)
Fixpoint snapshots (acts : list Action) (m : Metrics) : list Metrics :=
  match acts with
  | [] => [m]
  | a :: acts' => m :: snapshots acts' (a m)
  end.

(** Step 4 of [parseAllureReports] as a whole: the loop over the files the
    glob found, nothing when the glob fails. *)
Definition testCaseStep (fs : FileSystem) (path : string) : list Action :=
  match Glob fs (Join [path; "data"; "test-cases"; "*.json"]) with
  | inl testFiles => testCaseLoop fs testFiles
  | inr _ => []
  end.


(** ** Vocabulary of the specification *)





(** The number of history points with at least one failed test. *)
Definition points_with_failures (items : list HistoryItem) : nat :=
  length (List.filter (fun item => 0 <? Data_Failed item) items).

(** An action leaves the collector read by [p] as it is. *)
Definition keeps {A : Type} (p : Metrics -> A) (a : Action) : Prop :=
  forall m, p (a m) = p m.

(** What an action makes of the collector read by [p] depends on that
    collector only. *)
Definition local {A : Type} (p : Metrics -> A) (a : Action) : Prop :=
  forall m m', p m = p m' -> p (a m) = p (a m').

Definition fieldwise (a : Action) : Prop :=
  local testsTotal a /\ local suiteDuration a /\ local testDuration a /\
  local testStatus a /\ local flakyRatio a /\ local environmentInfo a /\
  local historyTrend a /\ local testsByLabel a /\ local stepsTotal a.



(** ** A report directory used in the examples *)

Definition no_such_file : error := ErrOS "no such file or directory".

Definition file_at {A : Type} (path : string) (a : A) : string -> Loaded A :=
  fun p => if String.eqb p path then Decoded a else ReadFailed no_such_file.

Definition missing {A : Type} : string -> Loaded A :=
  fun _ => ReadFailed no_such_file.

Definition summary_85 : AllureSummary :=
  {| Summary_Statistic := {| Passed := 85; Failed := 5; Broken := 3; Skipped := 7 |};
     Time_Duration := 348200 |}.

(** The history [{failed:2}, {failed:0}, {failed:1}]. *)
Definition history_201 : AllureHistoryTrend :=
  {| Items := [ {| Data_Failed := 2 |}; {| Data_Failed := 0 |}; {| Data_Failed := 1 |} ] |}.

Definition severity_critical : Label :=
  {| Label_Name := "Severity"; Label_Value := "critical" |}.

Definition login_test : AllureTestCase :=
  {| UUID := "7f3a"; Name := "login_test"; Status := "passed";
     Start := 1000; Stop := 13500;
     Labels := [ severity_critical;
                 {| Label_Name := "random"; Label_Value := "x" |} ];
     Steps := [ {| Step_Name := "open page"; Step_Status := "passed" |};
                {| Step_Name := "submit"; Step_Status := "passed" |} ] |}.


Definition fs_full : FileSystem :=
  {| environmentAt :=
       file_at "report/environment.json" ({[ "os" := "linux" ]} : gmap string string);
     summaryAt := file_at "report/widgets/summary.json" summary_85;
     historyTrendAt := file_at "report/widgets/history-trend.json" history_201;
     testCaseAt := file_at "report/data/test-cases/login.json" login_test;
     Glob := fun pattern =>
       if String.eqb pattern "report/data/test-cases/*.json"
       then inl ["report/data/test-cases/login.json"] else inl [] |}.

(** The same directory after [widgets/summary.json] has been deleted. *)
Definition fs_no_summary : FileSystem :=
  {| environmentAt := environmentAt fs_full;
     summaryAt := missing;
     historyTrendAt := historyTrendAt fs_full;
     testCaseAt := testCaseAt fs_full;
     Glob := Glob fs_full |}.

(** The clock when the process starts. *)
Definition startup : GoTime.Time := 63900000000 * GoTime.Second.

(** The state after a first, successful cycle on the full directory. *)
Definition st_published : State :=
  fst (parseAllureReports fs_full (startup + 1 * GoTime.Second) "report" state_init).

(** The state after a second cycle, which no longer finds the summary. *)
Definition st_after_failure : State :=
  fst (parseAllureReports fs_no_summary (startup + 31 * GoTime.Second) "report"
         st_published).

(** Three cycles, 30 seconds apart, none of which finds the summary. *)
Definition failing_run : list (FileSystem * GoTime.Time) :=
  [ (fs_no_summary, startup + 1 * GoTime.Second);
    (fs_no_summary, startup + 31 * GoTime.Second);
    (fs_no_summary, startup + 61 * GoTime.Second) ].

(** ** Vocabulary of the further properties *)

(** The number of steps with a given status. *)
Definition steps_with_status (status : string) (steps : list Step) : nat :=
  length (List.filter (fun step => String.eqb (Step_Status step) status) steps).




(** The test cases of the files that parse, in the order of the glob. *)
Definition loaded_test_cases (fs : FileSystem) (testFiles : list string)
  : list AllureTestCase :=
  flat_map (fun testFile =>
              match parseTestCase fs testFile with
              | inl tc => [tc]
              | inr _ => []
              end) testFiles.




(** The file system with another [environment.json]. *)
Definition with_environment (environment : string -> Loaded AllureEnvironment)
  (fs : FileSystem) : FileSystem :=
  {| environmentAt := environment;
     summaryAt := summaryAt fs;
     historyTrendAt := historyTrendAt fs;
     testCaseAt := testCaseAt fs;
     Glob := Glob fs |}.


(** The example directory with a second test-case file that cannot be read. *)
Definition fs_broken_case : FileSystem :=
  {| environmentAt := environmentAt fs_full;
     summaryAt := summaryAt fs_full;
     historyTrendAt := historyTrendAt fs_full;
     testCaseAt := testCaseAt fs_full;
     Glob := fun pattern =>
       if String.eqb pattern "report/data/test-cases/*.json"
       then inl ["report/data/test-cases/broken.json";
                 "report/data/test-cases/login.json"]
       else inl [] |}.

(** ** Proof automation *)

Create HintDb fieldwise_db.

Ltac field_action :=
  repeat split; intros m m' H; simpl; congruence.

Ltac kept := intros ? ?; reflexivity.

Ltac fieldwise_list :=
  repeat first [apply Forall_nil_2 | apply Forall_cons_2]; auto with fieldwise_db.

Ltac by_field := intros ? Hfw; apply Hfw.

(** * Lemmas and theorems *)

(** ** Case folding *)






(** ** The allow-list of [isUsefulLabel] *)




(** ** Running actions *)

Lemma exec_app (a b : list Action) (m : Metrics) :
  exec (a ++ b) m = exec b (exec a m).
Proof. apply fold_left_app. Qed.

Lemma exec_cons (a : Action) (acts : list Action) (m : Metrics) :
  exec (a :: acts) m = exec acts (a m).
Proof. reflexivity. Qed.

Lemma Metrics_eq (m m' : Metrics) :
  testsTotal m = testsTotal m' -> suiteDuration m = suiteDuration m' ->
  testDuration m = testDuration m' -> testStatus m = testStatus m' ->
  flakyRatio m = flakyRatio m' -> environmentInfo m = environmentInfo m' ->
  historyTrend m = historyTrend m' -> testsByLabel m = testsByLabel m' ->
  stepsTotal m = stepsTotal m' -> m = m'.
Proof. destruct m, m'; simpl; intros; subst; reflexivity. Qed.

Lemma differ_at {A : Type} (f : Metrics -> A) (m m' : Metrics) :
  f m <> f m' -> m <> m'.
Proof. congruence. Qed.

(** Each action works on one collector. *)

Lemma fieldwise_testsTotal f : fieldwise (on_testsTotal f).
Proof. field_action. Qed.

Lemma fieldwise_suiteDuration f : fieldwise (on_suiteDuration f).
Proof. field_action. Qed.

Lemma fieldwise_testDuration f : fieldwise (on_testDuration f).
Proof. field_action. Qed.

Lemma fieldwise_testStatus f : fieldwise (on_testStatus f).
Proof. field_action. Qed.

Lemma fieldwise_flakyRatio f : fieldwise (on_flakyRatio f).
Proof. field_action. Qed.

Lemma fieldwise_environmentInfo f : fieldwise (on_environmentInfo f).
Proof. field_action. Qed.

Lemma fieldwise_historyTrend f : fieldwise (on_historyTrend f).
Proof. field_action. Qed.

Lemma fieldwise_testsByLabel f : fieldwise (on_testsByLabel f).
Proof. field_action. Qed.

Lemma fieldwise_stepsTotal f : fieldwise (on_stepsTotal f).
Proof. field_action. Qed.

#[export] Hint Resolve fieldwise_testsTotal fieldwise_suiteDuration
  fieldwise_testDuration fieldwise_testStatus fieldwise_flakyRatio
  fieldwise_environmentInfo fieldwise_historyTrend fieldwise_testsByLabel
  fieldwise_stepsTotal : fieldwise_db.

(** ** Which collectors each part of a cycle leaves alone *)

Section Frame.

Context {A : Type} (p : Metrics -> A).

Lemma exec_keeps (acts : list Action) :
  Forall (keeps p) acts -> forall m, p (exec acts m) = p m.
Proof.
  induction 1 as [|a acts Ha _ IH]; intros m; [reflexivity|].
  rewrite exec_cons, IH. apply Ha.
Qed.

Lemma exec_local (acts : list Action) :
  Forall (local p) acts -> local p (exec acts).
Proof.
  induction 1 as [|a acts Ha _ IH]; intros m m' E; [exact E|].
  rewrite !exec_cons. apply IH, Ha, E.
Qed.

Lemma parseEnvironment_keeps fs path :
  (forall f, keeps p (on_environmentInfo f)) ->
  Forall (keeps p) (fst (parseEnvironment fs path)).
Proof.
  intros K. unfold parseEnvironment.
  destruct (load _) as [env|err]; simpl; [|constructor].
  apply Forall_map, Forall_forall. intros [k v] _. apply K.
Qed.

Lemma history_loop_keeps items : forall i c,
  (forall f, keeps p (on_historyTrend f)) ->
  Forall (keeps p) (fst (history_loop i items c)).
Proof.
  induction items as [|item rest IH]; intros i c K; simpl; [constructor|].
  specialize (IH (S i) (if 0 <? Data_Failed item then c + 1 else c) K).
  destruct (history_loop _ rest _) as [acts n]. simpl in *.
  constructor; [apply K | exact IH].
Qed.

Lemma updateHistoryMetrics_keeps history :
  (forall f, keeps p (on_historyTrend f)) ->
  (forall f, keeps p (on_flakyRatio f)) ->
  Forall (keeps p) (updateHistoryMetrics history).
Proof.
  intros K1 K2. unfold updateHistoryMetrics.
  destruct (Nat.eqb _ _); [constructor|].
  pose proof (history_loop_keeps (Items history) 0%nat 0 K1) as L.
  destruct (history_loop _ _ _) as [acts n]. simpl in L.
  apply Forall_app_2; [exact L|]. repeat constructor. apply K2.
Qed.

Lemma historyStep_keeps fs path :
  (forall f, keeps p (on_historyTrend f)) ->
  (forall f, keeps p (on_flakyRatio f)) ->
  Forall (keeps p) (historyStep fs path).
Proof.
  intros K1 K2. unfold historyStep.
  destruct (parseHistoryTrend _ _); [|constructor].
  apply updateHistoryMetrics_keeps; assumption.
Qed.

Lemma steps_loop_keeps (name : string) (l : list (string * Z)) :
  (forall f, keeps p (on_stepsTotal f)) ->
  Forall (keeps p)
    (map (fun '(status, count) =>
            on_stepsTotal (Prom.Set_ [name; status] (Float64.of_int count))) l).
Proof. intros K. apply Forall_map, Forall_forall. intros [s c] _. apply K. Qed.

Lemma label_loop_keeps (labels : list Label) :
  (forall f, keeps p (on_testsByLabel f)) ->
  Forall (keeps p)
    (flat_map (fun label =>
                 if isUsefulLabel (Label_Name label)
                 then [ on_testsByLabel
                          (Prom.Inc [Label_Name label; Label_Value label]) ]
                 else []) labels).
Proof.
  intros K. apply Forall_flat_map, Forall_forall. intros l _.
  destruct (isUsefulLabel _); repeat constructor. apply K.
Qed.

Lemma updateTestCaseMetrics_keeps tc :
  (forall f, keeps p (on_testDuration f)) ->
  (forall f, keeps p (on_testStatus f)) ->
  (forall f, keeps p (on_stepsTotal f)) ->
  (forall f, keeps p (on_testsByLabel f)) ->
  Forall (keeps p) (updateTestCaseMetrics tc).
Proof.
  intros K1 K2 K3 K4. unfold updateTestCaseMetrics.
  repeat apply Forall_cons_2; auto. simpl.
  apply Forall_app_2; [apply steps_loop_keeps, K3 | apply label_loop_keeps, K4].
Qed.

Lemma testCaseLoop_keeps fs testFiles :
  (forall f, keeps p (on_testDuration f)) ->
  (forall f, keeps p (on_testStatus f)) ->
  (forall f, keeps p (on_stepsTotal f)) ->
  (forall f, keeps p (on_testsByLabel f)) ->
  Forall (keeps p) (testCaseLoop fs testFiles).
Proof.
  intros K1 K2 K3 K4. unfold testCaseLoop.
  apply Forall_flat_map, Forall_forall. intros file _.
  destruct (parseTestCase fs file); [|constructor].
  apply updateTestCaseMetrics_keeps; assumption.
Qed.

Lemma testCaseStep_keeps fs path :
  (forall f, keeps p (on_testDuration f)) ->
  (forall f, keeps p (on_testStatus f)) ->
  (forall f, keeps p (on_stepsTotal f)) ->
  (forall f, keeps p (on_testsByLabel f)) ->
  Forall (keeps p) (testCaseStep fs path).
Proof.
  intros. unfold testCaseStep. destruct (Glob _ _); [|constructor].
  apply testCaseLoop_keeps; assumption.
Qed.

End Frame.

(** ** Every action of a cycle acts on the collectors one by one *)

Lemma fieldwise_resetMetrics : Forall fieldwise resetMetrics.
Proof. unfold resetMetrics. fieldwise_list. Qed.

Lemma fieldwise_parseEnvironment fs path :
  Forall fieldwise (fst (parseEnvironment fs path)).
Proof.
  unfold parseEnvironment. destruct (load _); simpl; [|constructor].
  apply Forall_map, Forall_forall. intros [k v] _. auto with fieldwise_db.
Qed.

Lemma fieldwise_updateSummaryMetrics summary :
  Forall fieldwise (updateSummaryMetrics summary).
Proof. unfold updateSummaryMetrics. fieldwise_list. Qed.

Lemma fieldwise_history_loop items : forall i c,
  Forall fieldwise (fst (history_loop i items c)).
Proof.
  induction items as [|item rest IH]; intros i c; simpl; [constructor|].
  specialize (IH (S i) (if 0 <? Data_Failed item then c + 1 else c)).
  destruct (history_loop _ rest _) as [acts n]. simpl in *.
  fieldwise_list.
Qed.

Lemma fieldwise_historyStep fs path : Forall fieldwise (historyStep fs path).
Proof.
  unfold historyStep. destruct (parseHistoryTrend _ _) as [h|]; [|constructor].
  unfold updateHistoryMetrics. destruct (Nat.eqb _ _); [constructor|].
  pose proof (fieldwise_history_loop (Items h) 0%nat 0) as L.
  destruct (history_loop _ _ _) as [acts n]. simpl in L.
  apply Forall_app_2; [exact L|]. fieldwise_list.
Qed.

Lemma fieldwise_updateTestCaseMetrics tc :
  Forall fieldwise (updateTestCaseMetrics tc).
Proof.
  unfold updateTestCaseMetrics.
  repeat (apply Forall_cons_2; [auto with fieldwise_db|]). simpl.
  apply Forall_app_2.
  - apply Forall_map, Forall_forall. intros [status count] _. auto with fieldwise_db.
  - apply Forall_flat_map, Forall_forall. intros l _.
    destruct (isUsefulLabel _); fieldwise_list.
Qed.

Lemma fieldwise_testCaseLoop fs testFiles :
  Forall fieldwise (testCaseLoop fs testFiles).
Proof.
  unfold testCaseLoop. apply Forall_flat_map, Forall_forall. intros file _.
  destruct (parseTestCase fs file); [|constructor].
  apply fieldwise_updateTestCaseMetrics.
Qed.

Lemma fieldwise_testCaseStep fs path : Forall fieldwise (testCaseStep fs path).
Proof.
  unfold testCaseStep. destruct (Glob _ _); [|constructor].
  apply fieldwise_testCaseLoop.
Qed.

Lemma exec_fieldwise_local {A : Type} (p : Metrics -> A) (acts : list Action) :
  (forall a, fieldwise a -> local p a) ->
  Forall fieldwise acts -> local p (exec acts).
Proof. intros P F. apply exec_local. eapply Forall_impl; eauto. Qed.

(** ** The shape of a cycle *)

Lemma parseAllureReports_metrics fs now path st :
  metrics (fst (parseAllureReports fs now path st)) =
  exec (fst (parseAllureReports_body fs path)) (metrics st).
Proof.
  unfold parseAllureReports. destruct (parseAllureReports_body fs path). reflexivity.
Qed.

Lemma parseAllureReports_error fs now path st :
  snd (parseAllureReports fs now path st) = snd (parseAllureReports_body fs path).
Proof.
  unfold parseAllureReports. destruct (parseAllureReports_body fs path). reflexivity.
Qed.

(** The shape of a cycle that returns [nil]. *)
Lemma body_success fs path acts :
  parseAllureReports_body fs path = (acts, None) ->
  exists summary testFiles,
    parseSummary fs (Join [path; "widgets"; "summary.json"]) = inl summary /\
    Glob fs (Join [path; "data"; "test-cases"; "*.json"]) = inl testFiles /\
    acts = resetMetrics
           ++ fst (parseEnvironment fs (Join [path; "environment.json"]))
           ++ updateSummaryMetrics summary
           ++ historyStep fs path
           ++ testCaseLoop fs testFiles.
Proof.
  unfold parseAllureReports_body.
  destruct (parseSummary _ _) as [summary|err]; [|discriminate].
  destruct (Glob _ _) as [testFiles|err]; [|discriminate].
  intros [= <-]. eauto.
Qed.

(** A cycle whose summary loads, step by step. *)
Lemma exec_body_summary fs path summary m :
  parseSummary fs (Join [path; "widgets"; "summary.json"]) = inl summary ->
  exec (fst (parseAllureReports_body fs path)) m =
  exec (testCaseStep fs path)
    (exec (historyStep fs path)
       (exec (updateSummaryMetrics summary)
          (exec (fst (parseEnvironment fs (Join [path; "environment.json"])))
             (exec resetMetrics m)))).
Proof.
  intros Hsum. unfold parseAllureReports_body, testCaseStep. rewrite Hsum.
  destruct (Glob _ _); cbn [fst]; rewrite !exec_app; reflexivity.
Qed.

(** A cycle whose summary does not load. *)
Lemma exec_body_no_summary fs path err :
  parseSummary fs (Join [path; "widgets"; "summary.json"]) = inr err ->
  parseAllureReports_body fs path =
  (resetMetrics ++ fst (parseEnvironment fs (Join [path; "environment.json"])),
   Some (Errorf "summary parse failed" err)).
Proof. intros Hsum. unfold parseAllureReports_body. rewrite Hsum. reflexivity. Qed.

(** The registry once the summary has been published: the reset, the
    environment and the five calls of [updateSummaryMetrics]. *)
Lemma summary_published fs path summary m :
  let m' := exec (updateSummaryMetrics summary)
              (exec (fst (parseEnvironment fs (Join [path; "environment.json"])))
                 (exec resetMetrics m)) in
  testsTotal m' =
    <[["skipped"] := Float64.of_int (Skipped (Summary_Statistic summary))]>
    (<[["broken"] := Float64.of_int (Broken (Summary_Statistic summary))]>
    (<[["failed"] := Float64.of_int (Failed (Summary_Statistic summary))]>
    (<[["passed"] := Float64.of_int (Passed (Summary_Statistic summary))]> ∅)))
  /\ suiteDuration m' = (Float64.of_int (Time_Duration summary) / 1000)%float
  /\ flakyRatio m' = flakyRatio m.
Proof.
  intros m'. subst m'.
  set (m1 := exec (fst (parseEnvironment _ _)) (exec resetMetrics m)).
  assert (testsTotal m1 = ∅) as E.
  { unfold m1. rewrite exec_keeps by (apply parseEnvironment_keeps; kept). reflexivity. }
  assert (flakyRatio m1 = flakyRatio m) as F.
  { unfold m1. rewrite exec_keeps by (apply parseEnvironment_keeps; kept). reflexivity. }
  split; [|split].
  - simpl. unfold Prom.Set_. rewrite E. reflexivity.
  - reflexivity.
  - simpl. exact F.
Qed.

(** After the reset, what a cycle computes for a collector depends on the
    value of that collector only. *)
Lemma cycle_local {A : Type} (p : Metrics -> A) fs path summary x y :
  (forall a, fieldwise a -> local p a) ->
  p x = p y ->
  p (exec (testCaseStep fs path) (exec (historyStep fs path)
       (exec (updateSummaryMetrics summary)
          (exec (fst (parseEnvironment fs (Join [path; "environment.json"]))) x)))) =
  p (exec (testCaseStep fs path) (exec (historyStep fs path)
       (exec (updateSummaryMetrics summary)
          (exec (fst (parseEnvironment fs (Join [path; "environment.json"]))) y)))).
Proof.
  intros P E.
  apply (exec_fieldwise_local p _ P (fieldwise_testCaseStep fs path)).
  apply (exec_fieldwise_local p _ P (fieldwise_historyStep fs path)).
  apply (exec_fieldwise_local p _ P (fieldwise_updateSummaryMetrics summary)).
  apply (exec_fieldwise_local p _ P (fieldwise_parseEnvironment fs _)).
  exact E.
Qed.

(** ** The history trend and the flaky ratio *)

Lemma history_loop_count items : forall i c,
  snd (history_loop i items c) = c + Z.of_nat (points_with_failures items).
Proof.
  unfold points_with_failures.
  induction items as [|item rest IH]; intros i c; simpl; [lia|].
  specialize (IH (S i) (if 0 <? Data_Failed item then c + 1 else c)).
  destruct (history_loop _ rest _) as [acts n]. simpl in *. rewrite IH.
  destruct (0 <? Data_Failed item); simpl; lia.
Qed.

(** What [updateHistoryMetrics] does to the flaky ratio. *)
Lemma updateHistoryMetrics_flakyRatio history m :
  flakyRatio (exec (updateHistoryMetrics history) m) =
  match Items history with
  | [] => flakyRatio m
  | _ :: _ =>
    (Float64.of_int (Z.of_nat (points_with_failures (Items history)))
     / Float64.of_int (Z.of_nat (length (Items history))))%float
  end.
Proof.
  unfold updateHistoryMetrics.
  destruct (Items history) as [|item rest] eqn:E; [reflexivity|].
  change (Nat.eqb (length (item :: rest)) 0) with false. cbv iota.
  pose proof (history_loop_count (item :: rest) 0%nat 0) as C.
  destruct (history_loop 0 (item :: rest) 0) as [acts n]. simpl in C. subst n.
  rewrite exec_app. simpl. rewrite Z.add_0_l. reflexivity.
Qed.

Lemma updateHistoryMetrics_empty history m :
  Items history = [] -> exec (updateHistoryMetrics history) m = m.
Proof. unfold updateHistoryMetrics. intros ->. reflexivity. Qed.

Lemma historyStep_flakyRatio fs path m :
  flakyRatio (exec (historyStep fs path) m) =
  match parseHistoryTrend fs (Join [path; "widgets"; "history-trend.json"]) with
  | inl history =>
    match Items history with
    | [] => flakyRatio m
    | _ :: _ =>
      (Float64.of_int (Z.of_nat (points_with_failures (Items history)))
       / Float64.of_int (Z.of_nat (length (Items history))))%float
    end
  | inr _ => flakyRatio m
  end.
Proof.
  unfold historyStep. destruct (parseHistoryTrend _ _) as [history|]; [|reflexivity].
  apply updateHistoryMetrics_flakyRatio.
Qed.

(** The flaky ratio after a cycle whose summary loaded, whatever the glob did. *)
Lemma cycle_flakyRatio fs path summary m :
  parseSummary fs (Join [path; "widgets"; "summary.json"]) = inl summary ->
  flakyRatio (exec (fst (parseAllureReports_body fs path)) m) =
  flakyRatio (exec (historyStep fs path) m).
Proof.
  intros Hsum. rewrite (exec_body_summary _ _ _ _ Hsum).
  rewrite (exec_keeps flakyRatio) by (apply testCaseStep_keeps; kept).
  apply exec_local.
  - eapply Forall_impl; [apply fieldwise_historyStep|]. intros a Ha. apply Ha.
  - apply summary_published.
Qed.

(** ** The loops of [parseEnvironment] and [updateTestCaseMetrics] *)

(** The [for k, v := range env] loop of [parseEnvironment]. *)
Lemma environment_loop_lookup (l : list (string * string)) : forall m lvs,
  environmentInfo
    (exec (map (fun '(k, v) => on_environmentInfo (Prom.Set_ [k; v] 1%float)) l) m)
  !! lvs =
  if decide (lvs ∈ map (fun '(k, v) => [k; v]) l) then Some 1%float
  else environmentInfo m !! lvs.
Proof.
  induction l as [|[k v] l IH]; intros m lvs.
  - cbn [map]. destruct (decide _) as [E|E]; [inversion E | reflexivity].
  - cbn [map]. rewrite exec_cons, IH.
    change (environmentInfo (on_environmentInfo (Prom.Set_ [k; v] 1%float) m))
      with (<[[k; v] := 1%float]> (environmentInfo m)).
    rewrite lookup_insert.
    destruct (decide (lvs ∈ map _ l)) as [E1|E1], (decide (lvs ∈ _ :: _)) as [E2|E2],
      (decide ([k; v] = lvs)) as [E3|E3]; try reflexivity.
    + exfalso. apply E2. right. exact E1.
    + exfalso. apply E2. right. exact E1.
    + exfalso. inversion E2; subst; tauto.
    + exfalso. apply E2. subst lvs. left.
Qed.

Lemma updateTestCaseMetrics_split tc m :
  exec (updateTestCaseMetrics tc) m =
  exec (flat_map (fun label =>
                    if isUsefulLabel (Label_Name label)
                    then [ on_testsByLabel
                             (Prom.Inc [Label_Name label; Label_Value label]) ]
                    else []) (Labels tc))
    (exec (map (fun '(status, count) =>
                  on_stepsTotal (Prom.Set_ [Name tc; status] (Float64.of_int count)))
               (map_to_list (count_steps (Steps tc))))
       (on_testStatus
          (Prom.Set_ [Name tc; Status tc; getLabelValue (Labels tc) "severity"]
             (if String.eqb (Status tc) "passed" then 1%float else 0%float))
          (on_testDuration
             (Prom.Set_ [Name tc; getLabelValue (Labels tc) "suite"]
                (Float64.of_int (Int64.sub (Stop tc) (Start tc)) / 1000)%float) m))).
Proof. unfold updateTestCaseMetrics. cbn [app]. rewrite !exec_cons, exec_app. reflexivity. Qed.


(** ** Label lookup *)

Lemma getLabelValue_find labels name :
  getLabelValue labels name =
  match find (fun label => GoStrings.EqualFold (Label_Name label) name) labels with
  | Some label => Label_Value label
  | None => "unknown"
  end.
Proof.
  induction labels as [|l rest IH]; simpl; [reflexivity|].
  destruct (GoStrings.EqualFold _ _); [reflexivity | exact IH].
Qed.



(** ** The time of the last parse and the health check *)

Lemma lastParseTime_every_return fs now path st :
  lastParseTime (fst (parseAllureReports fs now path st)) = now.
Proof.
  unfold parseAllureReports. destruct (parseAllureReports_body fs path). reflexivity.
Qed.

Lemma healthCheck_OK now st :
  healthCheck now st = (StatusOK, "OK") <-> now - lastParseTime st <= 5 * GoTime.Minute.
Proof.
  unfold healthCheck, GoTime.Since, GoTime.Sub, Int64.min_int, Int64.max_int,
    GoTime.Minute, GoTime.Second.
  destruct (Z.ltb_spec (5 * (60 * 1000000000))
              (Z.max (- 2 ^ 63) (Z.min (2 ^ 63 - 1) (now - lastParseTime st)))) as [L|L].
  - split; [discriminate|]. lia.
  - split; [lia | reflexivity].
Qed.

(** Whatever the cycle returned, the health check accepts it for the next
    five minutes. *)
Lemma healthy_after_any_cycle fs now now' path st :
  now' - now <= 5 * GoTime.Minute ->
  healthCheck now' (fst (parseAllureReports fs now path st)) = (StatusOK, "OK").
Proof. intros H. apply healthCheck_OK. rewrite lastParseTime_every_return. exact H. Qed.

(** Before the first cycle returns [lastParseTime] is the zero time, which is
    more than five minutes ago. *)
Lemma unhealthy_before_first_cycle now :
  5 * GoTime.Minute < now ->
  healthCheck now state_init = (StatusServiceUnavailable, "UNHEALTHY: Data is stale").
Proof.
  intros H. destruct (healthCheck now state_init) as [code body] eqn:E.
  unfold healthCheck in E.
  destruct (5 * GoTime.Minute <? GoTime.Since now (lastParseTime state_init)) eqn:L.
  - congruence.
  - exfalso. assert (healthCheck now state_init = (StatusOK, "OK")) as OK
      by (unfold healthCheck; rewrite L; reflexivity).
    apply healthCheck_OK in OK. simpl in OK. unfold GoTime.zero in OK. lia.
Qed.

(** ** The worker and the reader *)





(** ** Idempotence of a cycle *)

Lemma cycle_idempotent fs path acts m :
  parseAllureReports_body fs path = (acts, None) ->
  exec acts (exec acts m) = exec acts m.
Proof.
  intros B. destruct (body_success _ _ _ B) as (summary & testFiles & Hsum & _ & _).
  replace acts with (fst (parseAllureReports_body fs path)) by (rewrite B; reflexivity).
  set (m1 := exec _ m).
  assert (flakyRatio (exec (fst (parseAllureReports_body fs path)) m1) = flakyRatio m1) as F.
  { assert (forall x, flakyRatio (exec (fst (parseAllureReports_body fs path)) x) =
                       flakyRatio (exec (historyStep fs path) x)) as G
      by (intros x; apply (cycle_flakyRatio _ _ _ _ Hsum)).
    rewrite (G m1), (historyStep_flakyRatio fs path m1).
    destruct (parseHistoryTrend _ _) as [history|] eqn:PH; [|reflexivity].
    destruct (Items history) eqn:IT; [reflexivity|].
    subst m1. rewrite G, historyStep_flakyRatio, PH, IT. reflexivity. }
  apply Metrics_eq; [| | | |exact F| | | |];
    unfold m1 at 2; rewrite !(exec_body_summary _ _ _ _ Hsum).
  - apply cycle_local; [by_field | reflexivity].
  - rewrite !(exec_keeps suiteDuration (testCaseStep fs path)) by (apply testCaseStep_keeps; kept).
    rewrite !(exec_keeps suiteDuration (historyStep fs path)) by (apply historyStep_keeps; kept).
    reflexivity.
  - apply cycle_local; [by_field | reflexivity].
  - apply cycle_local; [by_field | reflexivity].
  - apply cycle_local; [by_field | reflexivity].
  - apply cycle_local; [by_field | reflexivity].
  - apply cycle_local; [by_field | reflexivity].
  - apply cycle_local; [by_field | reflexivity].
Qed.

(** * The claims *)

(** Claim C1, as the program has it. A cycle that cannot load the summary
    returns the error [summary parse failed]; by then it has already reset
    the seven labelled families and published the environment again, so
    [tests_total], [test_duration_seconds], [test_status],
    [history_failed_tests], [tests_by_label] and [test_steps_total] are
    empty, [environment_info] holds exactly the entries of the environment
    file (none when that file does not load), and the two plain gauges
    [suite_duration_seconds] and [flaky_tests_ratio] keep the values they
    had before the cycle. *)
Theorem C1_summary_failure fs now path st err :
  parseSummary fs (Join [path; "widgets"; "summary.json"]) = inr err ->
  let st' := fst (parseAllureReports fs now path st) in
  snd (parseAllureReports fs now path st) = Some (Errorf "summary parse failed" err) /\
  testsTotal (metrics st') = ∅ /\
  testDuration (metrics st') = ∅ /\
  testStatus (metrics st') = ∅ /\
  historyTrend (metrics st') = ∅ /\
  testsByLabel (metrics st') = ∅ /\
  stepsTotal (metrics st') = ∅ /\
  suiteDuration (metrics st') = suiteDuration (metrics st) /\
  flakyRatio (metrics st') = flakyRatio (metrics st) /\
  match environmentAt fs (Join [path; "environment.json"]) with
  | Decoded env =>
    forall lvs x, environmentInfo (metrics st') !! lvs = Some x <->
                  x = 1%float /\ exists k v, env !! k = Some v /\ lvs = [k; v]
  | _ => environmentInfo (metrics st') = ∅
  end.
Proof.
  intros Hsum st'. subst st'.
  rewrite parseAllureReports_error, parseAllureReports_metrics.
  rewrite (exec_body_no_summary _ _ _ Hsum). cbn [fst snd].
  rewrite exec_app.
  split; [reflexivity|].
  repeat (split; [rewrite exec_keeps by (apply parseEnvironment_keeps; kept); reflexivity|]).
  unfold parseEnvironment.
  destruct (environmentAt fs _) as [e|e|env]; cbn [load fst]; try reflexivity.
  intros lvs x. rewrite environment_loop_lookup.
  change (environmentInfo (exec resetMetrics (metrics st))) with (∅ : gmap (list string) float).
  rewrite lookup_empty. case_decide as E.
  - apply list_elem_of_In, in_map_iff in E. destruct E as ([k v] & <- & E).
    apply list_elem_of_In, elem_of_map_to_list in E.
    split; [intros [= <-]; eauto 6|]. intros [-> _]. reflexivity.
  - split; [discriminate|]. intros (_ & k & v & L & ->). exfalso. apply E.
    apply list_elem_of_In, in_map_iff. exists (k, v). split; [reflexivity|].
    apply list_elem_of_In, elem_of_map_to_list. exact L.
Qed.

(** The theorem of C1 on the example directory once [summary.json] is gone. *)
Lemma C1_witness :
  parseSummary fs_no_summary (Join ["report"; "widgets"; "summary.json"])
    = inr (Errorf "read file" no_such_file) /\
  snd (parseAllureReports fs_no_summary (startup + 31 * GoTime.Second) "report" st_published)
    = Some (Errorf "summary parse failed" (Errorf "read file" no_such_file)) /\
  testsTotal (metrics st_after_failure) = ∅ /\
  suiteDuration (metrics st_after_failure) = suiteDuration (metrics st_published).
Proof.
  split; [reflexivity|].
  pose proof (C1_summary_failure fs_no_summary (startup + 31 * GoTime.Second) "report"
                st_published (Errorf "read file" no_such_file) eq_refl) as H.
  cbv zeta in H. fold st_after_failure in H.
  destruct H as (H1 & H2 & _ & _ & _ & _ & _ & H8 & _).
  split; [exact H1|]. split; [exact H2 | exact H8].
Defined.

(** Claim C1 as stated fails: a successful cycle publishes
    [tests_total{status=passed} = 85] and the duration of [login_test]; the
    next cycle finds no summary and leaves both families empty. *)
Lemma C1_counterexample :
  snd (parseAllureReports fs_full (startup + 1 * GoTime.Second) "report" state_init) = None /\
  parseSummary fs_no_summary (Join ["report"; "widgets"; "summary.json"])
    = inr (Errorf "read file" no_such_file) /\
  testsTotal (metrics st_published) !! ["passed"] = Some 85%float /\
  testsTotal (metrics st_after_failure) !! ["passed"] = None /\
  testDuration (metrics st_published) !! ["login_test"; "unknown"] = Some 12.5%float /\
  testDuration (metrics st_after_failure) !! ["login_test"; "unknown"] = None /\
  metrics st_after_failure <> metrics st_published.
Proof.
  assert (testsTotal (metrics st_published) !! ["passed"] = Some 85%float) as P
    by (vm_compute; reflexivity).
  assert (testsTotal (metrics st_after_failure) !! ["passed"] = None) as Q
    by (vm_compute; reflexivity).
  repeat apply conj; try assumption; try (vm_compute; reflexivity).
  apply (differ_at (fun m => testsTotal m !! ["passed"])).
  rewrite P, Q. discriminate.
Qed.

(** Claim C2 on a directory that never had a summary. Before the first cycle
    returns the health check answers 503; every cycle fails with
    [summary parse failed], yet each one stores the clock in
    [lastParseTime], and the health check answers [200 OK] one second after
    the first failed cycle and again after three failed cycles in a row. *)
Lemma C2_failed_cycles_report_healthy :
  healthCheck startup state_init
    = (StatusServiceUnavailable, "UNHEALTHY: Data is stale") /\
  snd (parseAllureReports fs_no_summary (startup + 1 * GoTime.Second) "report" state_init)
    = Some (Errorf "summary parse failed" (Errorf "read file" no_such_file)) /\
  lastParseTime
    (fst (parseAllureReports fs_no_summary (startup + 1 * GoTime.Second) "report" state_init))
    = startup + 1 * GoTime.Second /\
  healthCheck (startup + 2 * GoTime.Second)
    (fst (parseAllureReports fs_no_summary (startup + 1 * GoTime.Second) "report" state_init))
    = (StatusOK, "OK") /\
  lastParseTime (runParser "report" failing_run state_init) = startup + 61 * GoTime.Second /\
  healthCheck (startup + 62 * GoTime.Second) (runParser "report" failing_run state_init)
    = (StatusOK, "OK").
Proof. repeat apply conj; vm_compute; reflexivity. Qed.














(** Claim C9. When a cycle returns no error, a second cycle on the same
    directory returns no error either and leaves every collector of the
    registry as the first cycle left it; in particular the counters of
    [tests_by_label] are the same. *)
Theorem C9_idempotent fs now1 now2 path st :
  snd (parseAllureReports fs now1 path st) = None ->
  let st1 := fst (parseAllureReports fs now1 path st) in
  snd (parseAllureReports fs now2 path st1) = None /\
  metrics (fst (parseAllureReports fs now2 path st1)) = metrics st1 /\
  testsByLabel (metrics (fst (parseAllureReports fs now2 path st1))) =
  testsByLabel (metrics st1).
Proof.
  intros Hok st1. subst st1.
  rewrite !parseAllureReports_error in *.
  assert (metrics (fst (parseAllureReports fs now2 path (fst (parseAllureReports fs now1 path st))))
          = metrics (fst (parseAllureReports fs now1 path st))) as E.
  { rewrite !parseAllureReports_metrics.
    destruct (parseAllureReports_body fs path) as [acts err] eqn:B.
    simpl in Hok. subst err. cbn [fst]. eapply cycle_idempotent, B. }
  split; [exact Hok|]. split; [exact E|]. rewrite E. reflexivity.
Qed.

(** The theorem of C9 on the example directory. *)
Lemma C9_witness :
  snd (parseAllureReports fs_full (startup + 1 * GoTime.Second) "report" state_init) = None /\
  metrics (fst (parseAllureReports fs_full (startup + 31 * GoTime.Second) "report" st_published))
  = metrics st_published.
Proof.
  split; [reflexivity|].
  apply (C9_idempotent fs_full (startup + 1 * GoTime.Second) (startup + 31 * GoTime.Second)
           "report" state_init eq_refl).
Defined.



(** * Further lemmas *)

(** ** The loops of [updateHistoryMetrics] and of the steps *)

Lemma build_label_inj (i j : nat) : build_label i = build_label j -> i = j.
Proof.
  unfold build_label. intros E. simpl in E. injection E as E.
  exact (inj pretty i j E).
Qed.

Lemma history_loop_lookup items : forall i0 c m,
  (forall j item, items !! j = Some item ->
     historyTrend (exec (fst (history_loop i0 items c)) m) !! [build_label (i0 + j)]
     = Some (Float64.of_int (Data_Failed item))) /\
  (forall lvs, (forall j, (j < length items)%nat -> lvs <> [build_label (i0 + j)]) ->
     historyTrend (exec (fst (history_loop i0 items c)) m) !! lvs = historyTrend m !! lvs).
Proof.
  induction items as [|item rest IH]; intros i0 c m.
  - split; [intros j x H; discriminate H | reflexivity].
  - cbn [history_loop].
    destruct (IH (S i0) (if 0 <? Data_Failed item then c + 1 else c)
                (on_historyTrend (Prom.Set_ [build_label i0]
                   (Float64.of_int (Data_Failed item))) m)) as [IH1 IH2].
    destruct (history_loop (S i0) rest _) as [acts n]. cbn [fst] in *.
    rewrite exec_cons. split.
    + intros [|j] x H.
      * injection H as <-. rewrite Nat.add_0_r, IH2.
        -- apply lookup_insert_eq.
        -- intros j Hj E. assert (i0 = S i0 + j)%nat by (apply build_label_inj; congruence). lia.
      * replace (i0 + S j)%nat with (S i0 + j)%nat by lia. apply IH1. exact H.
    + intros lvs N. rewrite IH2.
      * change (historyTrend (on_historyTrend (Prom.Set_ [build_label i0]
                  (Float64.of_int (Data_Failed item))) m))
          with (<[[build_label i0] := Float64.of_int (Data_Failed item)]> (historyTrend m)).
        apply lookup_insert_ne. intros E. apply (N 0%nat); [simpl; lia|].
        rewrite Nat.add_0_r. symmetry. exact E.
      * intros j Hj. replace (S i0 + j)%nat with (i0 + S j)%nat by lia.
        apply N. simpl. lia.
Qed.

Lemma updateHistoryMetrics_historyTrend history m :
  (forall i item, Items history !! i = Some item ->
     historyTrend (exec (updateHistoryMetrics history) m) !! [build_label i]
     = Some (Float64.of_int (Data_Failed item))) /\
  (forall lvs, (forall i, (i < length (Items history))%nat -> lvs <> [build_label i]) ->
     historyTrend (exec (updateHistoryMetrics history) m) !! lvs = historyTrend m !! lvs).
Proof.
  unfold updateHistoryMetrics.
  destruct (Items history) as [|item rest] eqn:E.
  - split; [intros i x H; discriminate H | reflexivity].
  - change (Nat.eqb (length (item :: rest)) 0) with false. cbv iota.
    destruct (history_loop_lookup (item :: rest) 0%nat 0 m) as [L1 L2].
    destruct (history_loop 0 (item :: rest) 0) as [acts n]. cbn [fst] in *.
    split.
    + intros i x H. rewrite exec_app. exact (L1 i x H).
    + intros lvs N. rewrite exec_app. exact (L2 lvs N).
Qed.

Lemma count_steps_acc (status : string) (steps : list Step) : forall acc : gmap string Z,
  fold_left
    (fun (m : gmap string Z) step =>
       <[Step_Status step := default 0 (m !! Step_Status step) + 1]> m)
    steps acc !! status =
  match steps_with_status status steps with
  | O => acc !! status
  | S _ as n => Some (default 0 (acc !! status) + Z.of_nat n)
  end.
Proof.
  unfold steps_with_status.
  induction steps as [|step rest IH]; intros acc; [reflexivity|].
  cbn [fold_left List.filter]. rewrite IH.
  destruct (String.eqb_spec (Step_Status step) status) as [E|E].
  - subst status. cbn [length]. rewrite lookup_insert_eq. cbn [default].
    destruct (length _); f_equal; unfold id; lia.
  - rewrite lookup_insert_ne by exact E. reflexivity.
Qed.

Lemma count_steps_lookup (status : string) (steps : list Step) :
  count_steps steps !! status =
  match steps_with_status status steps with
  | O => None
  | S _ as n => Some (Z.of_nat n)
  end.
Proof.
  unfold count_steps. rewrite count_steps_acc, lookup_empty.
  destruct (steps_with_status status steps); reflexivity.
Qed.

Lemma steps_loop_lookup (name status : string) (l : list (string * Z)) :
  NoDup (l.*1) -> forall m,
  stepsTotal
    (exec (map (fun '(status, count) =>
                  on_stepsTotal (Prom.Set_ [name; status] (Float64.of_int count))) l) m)
  !! [name; status] =
  match (list_to_map l : gmap string Z) !! status with
  | Some count => Some (Float64.of_int count)
  | None => stepsTotal m !! [name; status]
  end.
Proof.
  induction l as [|[s c] l IH]; intros ND m; [reflexivity|].
  inversion ND as [|? ? Hnotin ND']; subst.
  cbn [map]. rewrite exec_cons, (IH ND'). cbn [list_to_map foldr].
  change (stepsTotal (on_stepsTotal (Prom.Set_ [name; s] (Float64.of_int c)) m))
    with (<[[name; s] := Float64.of_int c]> (stepsTotal m)).
  destruct (decide (s = status)) as [->|Hne].
  - cbn [fst snd].
    rewrite (not_elem_of_list_to_map_1 (M := gmap string) l status Hnotin).
    rewrite !lookup_insert_eq. reflexivity.
  - cbn [fst snd]. rewrite (lookup_insert_ne _ s status) by exact Hne.
    rewrite lookup_insert_ne by congruence. reflexivity.
Qed.

Lemma steps_loop_other (name : string) (lvs : list string) (l : list (string * Z)) :
  (forall status, lvs <> [name; status]) -> forall m,
  stepsTotal
    (exec (map (fun '(status, count) =>
                  on_stepsTotal (Prom.Set_ [name; status] (Float64.of_int count))) l) m)
  !! lvs = stepsTotal m !! lvs.
Proof.
  intros N. induction l as [|[s c] l IH]; intros m; [reflexivity|].
  cbn [map]. rewrite exec_cons, IH.
  change (stepsTotal (on_stepsTotal (Prom.Set_ [name; s] (Float64.of_int c)) m))
    with (<[[name; s] := Float64.of_int c]> (stepsTotal m)).
  apply lookup_insert_ne. intros E. apply (N s). symmetry. exact E.
Qed.

(** ** The loop over the test-case files *)












(** ** The environment *)

Lemma environment_published fs path m :
  match environmentAt fs path with
  | Decoded env =>
    forall lvs x,
      environmentInfo (exec (fst (parseEnvironment fs path)) (exec resetMetrics m)) !! lvs
      = Some x <->
      x = 1%float /\ exists k v, env !! k = Some v /\ lvs = [k; v]
  | _ => environmentInfo (exec (fst (parseEnvironment fs path)) (exec resetMetrics m)) = ∅
  end.
Proof.
  unfold parseEnvironment.
  destruct (environmentAt fs path) as [e|e|env]; cbn [load fst]; try reflexivity.
  intros lvs x. rewrite environment_loop_lookup.
  change (environmentInfo (exec resetMetrics m)) with (∅ : gmap (list string) float).
  rewrite lookup_empty. case_decide as E.
  - apply list_elem_of_In, in_map_iff in E. destruct E as ([k v] & <- & E).
    apply list_elem_of_In, elem_of_map_to_list in E.
    split; [intros [= <-]; eauto 6|]. intros [-> _]. reflexivity.
  - split; [discriminate|]. intros (_ & k & v & L & ->). exfalso. apply E.
    apply list_elem_of_In, in_map_iff. exists (k, v). split; [reflexivity|].
    apply list_elem_of_In, elem_of_map_to_list. exact L.
Qed.

Lemma cycle_environmentInfo fs path m :
  environmentInfo (exec (fst (parseAllureReports_body fs path)) m) =
  environmentInfo (exec (fst (parseEnvironment fs (Join [path; "environment.json"])))
                     (exec resetMetrics m)).
Proof.
  destruct (parseSummary fs (Join [path; "widgets"; "summary.json"])) as [summary|err] eqn:Hsum.
  - rewrite (exec_body_summary _ _ _ _ Hsum).
    rewrite (exec_keeps environmentInfo) by (apply testCaseStep_keeps; kept).
    rewrite (exec_keeps environmentInfo) by (apply historyStep_keeps; kept).
    rewrite (exec_keeps environmentInfo) by (unfold updateSummaryMetrics; repeat constructor).
    reflexivity.
  - rewrite (exec_body_no_summary _ _ _ Hsum). cbn [fst]. rewrite exec_app. reflexivity.
Qed.

(** What the steps after [parseEnvironment] make of a collector depends on
    that collector only. *)
Lemma after_environment_local {A : Type} (p : Metrics -> A) fs path summary x y :
  (forall a, fieldwise a -> local p a) ->
  p x = p y ->
  p (exec (testCaseStep fs path) (exec (historyStep fs path)
       (exec (updateSummaryMetrics summary) x))) =
  p (exec (testCaseStep fs path) (exec (historyStep fs path)
       (exec (updateSummaryMetrics summary) y))).
Proof.
  intros P E.
  apply (exec_fieldwise_local p _ P (fieldwise_testCaseStep fs path)).
  apply (exec_fieldwise_local p _ P (fieldwise_historyStep fs path)).
  apply (exec_fieldwise_local p _ P (fieldwise_updateSummaryMetrics summary)).
  exact E.
Qed.

Lemma environment_is_optional {A : Type} (p : Metrics -> A) environment fs path m :
  (forall a, fieldwise a -> local p a) ->
  (forall f, keeps p (on_environmentInfo f)) ->
  p (exec (fst (parseAllureReports_body (with_environment environment fs) path)) m) =
  p (exec (fst (parseAllureReports_body fs path)) m).
Proof.
  intros P K.
  destruct (parseSummary fs (Join [path; "widgets"; "summary.json"])) as [summary|err] eqn:Hsum.
  - rewrite (exec_body_summary fs _ _ _ Hsum).
    rewrite (exec_body_summary (with_environment environment fs) _ summary _ Hsum).
    change (historyStep (with_environment environment fs) path) with (historyStep fs path).
    change (testCaseStep (with_environment environment fs) path) with (testCaseStep fs path).
    apply after_environment_local; [exact P|].
    rewrite (exec_keeps p (fst (parseEnvironment fs _)))
      by (apply parseEnvironment_keeps, K).
    rewrite (exec_keeps p (fst (parseEnvironment (with_environment environment fs) _)))
      by (apply parseEnvironment_keeps, K).
    reflexivity.
  - rewrite (exec_body_no_summary fs _ _ Hsum).
    rewrite (exec_body_no_summary (with_environment environment fs) _ err Hsum).
    cbn [fst]. rewrite !exec_app.
    rewrite (exec_keeps p (fst (parseEnvironment fs _)))
      by (apply parseEnvironment_keeps, K).
    rewrite (exec_keeps p (fst (parseEnvironment (with_environment environment fs) _)))
      by (apply parseEnvironment_keeps, K).
    reflexivity.
Qed.

(** ** A cycle and the registry it starts from *)

(** What a cycle that returns [nil] publishes depends on the registry it
    starts from through the flaky ratio only, and not at all when the
    history has a point. *)
Lemma cycle_depends fs path acts m m' :
  parseAllureReports_body fs path = (acts, None) ->
  flakyRatio m = flakyRatio m' \/
  (exists history item rest,
     parseHistoryTrend fs (Join [path; "widgets"; "history-trend.json"]) = inl history /\
     Items history = item :: rest) ->
  exec acts m = exec acts m'.
Proof.
  intros B D. destruct (body_success _ _ _ B) as (summary & testFiles & Hsum & _ & _).
  replace acts with (fst (parseAllureReports_body fs path)) by (rewrite B; reflexivity).
  assert (flakyRatio (exec (fst (parseAllureReports_body fs path)) m) =
          flakyRatio (exec (fst (parseAllureReports_body fs path)) m')) as F.
  { rewrite !(cycle_flakyRatio _ _ _ _ Hsum), !historyStep_flakyRatio.
    destruct D as [D|(history & item & rest & -> & ->)]; [|reflexivity].
    destruct (parseHistoryTrend _ _) as [history|]; [|exact D].
    destruct (Items history); [exact D | reflexivity]. }
  apply Metrics_eq; [| | | |exact F| | | |];
    rewrite !(exec_body_summary _ _ _ _ Hsum).
  - apply cycle_local; [by_field | reflexivity].
  - rewrite !(exec_keeps suiteDuration (testCaseStep fs path)) by (apply testCaseStep_keeps; kept).
    rewrite !(exec_keeps suiteDuration (historyStep fs path)) by (apply historyStep_keeps; kept).
    reflexivity.
  - apply cycle_local; [by_field | reflexivity].
  - apply cycle_local; [by_field | reflexivity].
  - apply cycle_local; [by_field | reflexivity].
  - apply cycle_local; [by_field | reflexivity].
  - apply cycle_local; [by_field | reflexivity].
  - apply cycle_local; [by_field | reflexivity].
Qed.

Lemma runParser_app path cycles cycles' st :
  runParser path (cycles ++ cycles') st = runParser path cycles' (runParser path cycles st).
Proof. apply fold_left_app. Qed.


Lemma filter_length_all {A : Type} (f : A -> bool) (l : list A) :
  length (List.filter f l) = length l <-> forall x, In x l -> f x = true.
Proof.
  induction l as [|x l IH]; [split; [intros _ y [] | reflexivity]|].
  cbn [List.filter]. pose proof (List.filter_length_le f l) as L.
  destruct (f x) eqn:E; cbn [length].
  - split.
    + intros H y [<-|Hy]; [exact E|]. apply IH; [lia | exact Hy].
    + intros H. f_equal. apply IH. intros y Hy. apply H. right. exact Hy.
  - split; [lia|]. intros H. specialize (H x (or_introl eq_refl)). congruence.
Qed.

Lemma filter_length_none {A : Type} (f : A -> bool) (l : list A) :
  length (List.filter f l) = 0%nat <-> forall x, In x l -> f x = false.
Proof.
  induction l as [|x l IH]; [split; [intros _ y [] | reflexivity]|].
  cbn [List.filter]. destruct (f x) eqn:E; cbn [length].
  - split; [discriminate|]. intros H. specialize (H x (or_introl eq_refl)). congruence.
  - rewrite IH. split.
    + intros H y [<-|Hy]; [exact E | apply H, Hy].
    + intros H y Hy. apply H. right. exact Hy.
Qed.

(** * Further properties of the program *)

(** Property X1. In a cycle whose summary loaded, [history_failed_tests] holds
    one gauge per point of the history, under [build_i] for the point of
    index [i], with that point's failed count, and nothing under any other
    key; when the history file does not load the family is empty. *)
Theorem X1_history_trend fs now path st summary :
  parseSummary fs (Join [path; "widgets"; "summary.json"]) = inl summary ->
  let after := metrics (fst (parseAllureReports fs now path st)) in
  match parseHistoryTrend fs (Join [path; "widgets"; "history-trend.json"]) with
  | inl history =>
    (forall i item, Items history !! i = Some item ->
       historyTrend after !! [build_label i] = Some (Float64.of_int (Data_Failed item))) /\
    (forall lvs, (forall i, (i < length (Items history))%nat -> lvs <> [build_label i]) ->
       historyTrend after !! lvs = None)
  | inr _ => historyTrend after = ∅
  end.
Proof.
  intros Hsum after. subst after.
  rewrite parseAllureReports_metrics, (exec_body_summary _ _ _ _ Hsum).
  rewrite (exec_keeps historyTrend) by (apply testCaseStep_keeps; kept).
  set (x := exec (updateSummaryMetrics summary) _).
  assert (historyTrend x = ∅) as X.
  { unfold x. rewrite (exec_keeps historyTrend) by (unfold updateSummaryMetrics; repeat constructor).
    rewrite (exec_keeps historyTrend) by (apply parseEnvironment_keeps; kept). reflexivity. }
  unfold historyStep.
  destruct (parseHistoryTrend _ _) as [history|]; [|exact X].
  destruct (updateHistoryMetrics_historyTrend history x) as [L1 L2].
  split; [exact L1|]. intros lvs N. rewrite (L2 lvs N), X. apply lookup_empty.
Qed.

(** The theorem of X1 on the example directory. *)
Lemma X1_witness :
  parseSummary fs_full (Join ["report"; "widgets"; "summary.json"]) = inl summary_85 /\
  historyTrend (metrics st_published) !! ["build_0"] = Some 2%float /\
  historyTrend (metrics st_published) !! ["build_7"] = None.
Proof.
  split; [reflexivity|].
  pose proof (X1_history_trend fs_full (startup + 1 * GoTime.Second) "report" state_init
                summary_85 eq_refl) as H.
  cbv zeta in H.
  change (parseHistoryTrend fs_full (Join ["report"; "widgets"; "history-trend.json"]))
    with (@inl AllureHistoryTrend error history_201) in H.
  cbv iota beta in H. fold st_published in H. destruct H as [H1 H2]. split.
  - refine (eq_trans (H1 0%nat {| Data_Failed := 2 |} eq_refl) _). vm_compute. reflexivity.
  - apply H2. intros i Hi E.
    change (length (Items history_201)) with 3%nat in Hi.
    destruct i as [|[|[|i]]]; try lia; vm_compute in E; discriminate E.
Defined.



(** Property X3. After [updateTestCaseMetrics], [test_steps_total] holds
    under (test name, status) the number of steps of the test case with that
    status; a status that no step has gets no gauge, and the children under
    another test name are left as they are. *)
Theorem X3_steps_total tc m :
  (forall status,
     stepsTotal (exec (updateTestCaseMetrics tc) m) !! [Name tc; status] =
     match steps_with_status status (Steps tc) with
     | O => stepsTotal m !! [Name tc; status]
     | S _ as n => Some (Float64.of_int (Z.of_nat n))
     end) /\
  (forall lvs, (forall status, lvs <> [Name tc; status]) ->
     stepsTotal (exec (updateTestCaseMetrics tc) m) !! lvs = stepsTotal m !! lvs).
Proof.
  rewrite updateTestCaseMetrics_split.
  rewrite (exec_keeps stepsTotal) by (apply label_loop_keeps; kept).
  split.
  - intros status. rewrite steps_loop_lookup by apply NoDup_fst_map_to_list.
    rewrite list_to_map_to_list, count_steps_lookup.
    destruct (steps_with_status status (Steps tc)); reflexivity.
  - intros lvs N. rewrite steps_loop_other by exact N. reflexivity.
Qed.

(** The theorem of X3 on [login_test], which has two passed steps. *)
Lemma X3_witness :
  stepsTotal (exec (updateTestCaseMetrics login_test) metrics_init)
    !! ["login_test"; "passed"] = Some 2%float /\
  stepsTotal (exec (updateTestCaseMetrics login_test) metrics_init)
    !! ["login_test"; "failed"] = None.
Proof.
  destruct (X3_steps_total login_test metrics_init) as (H & _). split.
  - refine (eq_trans (H "passed") _). vm_compute. reflexivity.
  - refine (eq_trans (H "failed") _). vm_compute. reflexivity.
Defined.



(** Property X5. A test-case file that does not parse adds nothing: the loop
    performs the actions it performs without that file, and the test cases
    that load are the same. *)
Theorem X5_unparsable_file_skipped fs pre testFile post err :
  parseTestCase fs testFile = inr err ->
  testCaseLoop fs (pre ++ testFile :: post) = testCaseLoop fs (pre ++ post) /\
  loaded_test_cases fs (pre ++ testFile :: post) = loaded_test_cases fs (pre ++ post).
Proof.
  intros H. unfold testCaseLoop, loaded_test_cases.
  rewrite !flat_map_app. cbn [flat_map]. rewrite H. split; reflexivity.
Qed.

(** The theorem of X5 on a directory with one unreadable test-case file. *)
Lemma X5_witness :
  parseTestCase fs_broken_case "report/data/test-cases/broken.json"
    = inr (Errorf "read file" no_such_file) /\
  loaded_test_cases fs_broken_case
    ["report/data/test-cases/broken.json"; "report/data/test-cases/login.json"]
  = [login_test].
Proof.
  split; [reflexivity|].
  destruct (X5_unparsable_file_skipped fs_broken_case [] "report/data/test-cases/broken.json"
              ["report/data/test-cases/login.json"] _ eq_refl) as [_ H].
  refine (eq_trans H _). reflexivity.
Defined.





(** Property X8. After every cycle, whatever it returns, [environment_info]
    holds the value 1 under (key, value) for exactly the entries of the
    environment file, and is empty when that file does not load. *)
Theorem X8_environment_info fs now path st :
  match environmentAt fs (Join [path; "environment.json"]) with
  | Decoded env =>
    forall lvs x,
      environmentInfo (metrics (fst (parseAllureReports fs now path st))) !! lvs = Some x <->
      x = 1%float /\ exists k v, env !! k = Some v /\ lvs = [k; v]
  | _ => environmentInfo (metrics (fst (parseAllureReports fs now path st))) = ∅
  end.
Proof.
  rewrite parseAllureReports_metrics, cycle_environmentInfo.
  apply environment_published.
Qed.

(** Property X9. The environment file has no influence on the error a cycle
    returns nor on any collector other than [environment_info]. *)
Theorem X9_environment_is_optional environment fs now path st :
  let after := metrics (fst (parseAllureReports fs now path st)) in
  let after' :=
    metrics (fst (parseAllureReports (with_environment environment fs) now path st)) in
  snd (parseAllureReports (with_environment environment fs) now path st) =
  snd (parseAllureReports fs now path st) /\
  testsTotal after' = testsTotal after /\
  suiteDuration after' = suiteDuration after /\
  testDuration after' = testDuration after /\
  testStatus after' = testStatus after /\
  flakyRatio after' = flakyRatio after /\
  historyTrend after' = historyTrend after /\
  testsByLabel after' = testsByLabel after /\
  stepsTotal after' = stepsTotal after.
Proof.
  intros after after'. subst after after'.
  rewrite !parseAllureReports_error, !parseAllureReports_metrics.
  split.
  { unfold parseAllureReports_body.
    change (parseSummary (with_environment environment fs)) with (parseSummary fs).
    change (Glob (with_environment environment fs)) with (Glob fs).
    destruct (parseSummary fs _); [|reflexivity].
    destruct (Glob fs _); reflexivity. }
  repeat apply conj; apply environment_is_optional; solve [by_field | kept].
Qed.

(** Property X10. A cycle that returns no error publishes the same registry
    from two registries that agree on the flaky ratio: nothing else of the
    previous registry survives the cycle. *)
Theorem X10_previous_registry fs now now' path st st' :
  snd (parseAllureReports fs now path st) = None ->
  flakyRatio (metrics st) = flakyRatio (metrics st') ->
  metrics (fst (parseAllureReports fs now path st)) =
  metrics (fst (parseAllureReports fs now' path st')).
Proof.
  intros Hok F. rewrite parseAllureReports_error in Hok.
  rewrite !parseAllureReports_metrics.
  destruct (parseAllureReports_body fs path) as [acts err] eqn:B. cbn [snd] in Hok. subst err.
  cbn [fst]. apply (cycle_depends _ _ _ _ _ B). left. exact F.
Qed.

(** The theorem of X10 for a fresh registry and the one left by three failed cycles. *)
Lemma X10_witness :
  flakyRatio (metrics state_init)
  = flakyRatio (metrics (runParser "report" failing_run state_init)) /\
  metrics (fst (parseAllureReports fs_full (startup + 1 * GoTime.Second) "report" state_init))
  = metrics (fst (parseAllureReports fs_full (startup + 91 * GoTime.Second) "report"
                    (runParser "report" failing_run state_init))).
Proof.
  assert (flakyRatio (metrics state_init)
          = flakyRatio (metrics (runParser "report" failing_run state_init))) as F
    by (vm_compute; reflexivity).
  split; [exact F|].
  exact (X10_previous_registry fs_full _ _ "report" state_init _ eq_refl F).
Defined.

(** Property X11. [healthCheck] answers [200 OK] exactly when the clock is at
    most five minutes past [lastParseTime] (five minutes sharp included, a
    clock behind [lastParseTime] too), and [503 UNHEALTHY: Data is stale]
    exactly when it is more than five minutes past it. *)
Theorem X11_health_threshold now st :
  (healthCheck now st = (StatusOK, "OK") <->
   now - lastParseTime st <= 5 * GoTime.Minute) /\
  (healthCheck now st = (StatusServiceUnavailable, "UNHEALTHY: Data is stale") <->
   5 * GoTime.Minute < now - lastParseTime st).
Proof.
  split; [apply healthCheck_OK|].
  pose proof (healthCheck_OK now st) as H.
  unfold healthCheck in *.
  destruct (5 * GoTime.Minute <? GoTime.Since now (lastParseTime st)).
  - split; [|reflexivity]. intros _.
    destruct (Z.le_gt_cases (now - lastParseTime st) (5 * GoTime.Minute)) as [L|L]; [|exact L].
    apply H in L. discriminate L.
  - split; [discriminate|]. intros L. exfalso.
    assert (now - lastParseTime st <= 5 * GoTime.Minute) by (apply H; reflexivity). lia.
Qed.

(** Property X12. When the last cycle of a run of [runParser] returns no error
    and its history has a point, the registry after the run is the one that
    cycle publishes on a fresh registry, whatever the earlier cycles did,
    and [lastParseTime] is the time that cycle returned. *)
Theorem X12_recovery path cycles fs now st history item rest :
  snd (parseAllureReports fs now path state_init) = None ->
  parseHistoryTrend fs (Join [path; "widgets"; "history-trend.json"]) = inl history ->
  Items history = item :: rest ->
  metrics (runParser path (cycles ++ [(fs, now)]) st) =
  metrics (fst (parseAllureReports fs now path state_init)) /\
  lastParseTime (runParser path (cycles ++ [(fs, now)]) st) = now.
Proof.
  intros Hok Hh Hi. rewrite runParser_app. cbn [runParser fold_left].
  split; [|apply lastParseTime_every_return].
  rewrite parseAllureReports_error in Hok. rewrite !parseAllureReports_metrics.
  destruct (parseAllureReports_body fs path) as [acts err] eqn:B. cbn [snd] in Hok. subst err.
  cbn [fst]. apply (cycle_depends _ _ _ _ _ B). right. eauto.
Qed.

(** The theorem of X12 for three failed cycles followed by a good one. *)
Lemma X12_witness :
  metrics (runParser "report" (failing_run ++ [(fs_full, startup + 91 * GoTime.Second)])
             st_published)
  = metrics (fst (parseAllureReports fs_full (startup + 91 * GoTime.Second) "report"
                    state_init)) /\
  lastParseTime (runParser "report" (failing_run ++ [(fs_full, startup + 91 * GoTime.Second)])
                   st_published)
  = startup + 91 * GoTime.Second.
Proof.
  exact (X12_recovery "report" failing_run fs_full (startup + 91 * GoTime.Second) st_published
           history_201 {| Data_Failed := 2 |}
           [ {| Data_Failed := 0 |}; {| Data_Failed := 1 |} ] eq_refl eq_refl eq_refl).
Defined.



(** Property X14. The counter [failedCount] of the loop of
    [updateHistoryMetrics] ends between 0 and the number of points; it is
    the number of points exactly when every point has a positive failed
    count, and 0 exactly when none has. *)
Theorem X14_failed_count_bounds items i :
  0 <= snd (history_loop i items 0) <= Z.of_nat (length items) /\
  (snd (history_loop i items 0) = Z.of_nat (length items) <->
   forall item, In item items -> 0 < Data_Failed item) /\
  (snd (history_loop i items 0) = 0 <->
   forall item, In item items -> Data_Failed item <= 0).
Proof.
  rewrite history_loop_count, Z.add_0_l. unfold points_with_failures.
  pose proof (List.filter_length_le (fun item => 0 <? Data_Failed item) items) as L.
  split; [lia|]. split.
  - rewrite Nat2Z.inj_iff, filter_length_all. split; intros H item Hin.
    + apply Z.ltb_lt, H, Hin.
    + apply Z.ltb_lt, H, Hin.
  - split.
    + intros H.
      assert (length (List.filter (fun item => 0 <? Data_Failed item) items) = 0%nat) as Z0
        by lia.
      intros item Hin. apply Z.ltb_ge. exact (proj1 (filter_length_none _ _) Z0 item Hin).
    + intros H.
      assert (length (List.filter (fun item => 0 <? Data_Failed item) items) = 0%nat) as Z0
        by (apply filter_length_none; intros item Hin; apply Z.ltb_ge, H, Hin).
      lia.
Qed.
